(** * The FOUND integration runner: [integration_runner.hpp] / [integration_runner.cpp]

    A shallow embedding of [integration::run_pipeline], [integration::print_result]
    and [integration::write_result_json].

    - C++ [double] is IEEE binary64, here the kernel's [float] ([PrimFloat]);
      arithmetic on it is the primitive one, so the development computes.
    - C++ [int] is a [Z] together with the wrap-around of the conversion that
      produces it.
    - [std::string] is [string] (a sequence of bytes).
    - The C++ statements that update the local [RunResult r], return early and
      throw are written in a small state monad whose completions are "normal",
      "returned" and "threw".
    - What the repository calls but does not implement (libc's [fopen],
      [stb_image], the FOUND library, the formatting of a [double] by an
      output stream, the opening of an output file) is gathered in the record
      [External]; every statement is proved for all of its values.
    - "Parseable JSON" is read against a parser of the JSON grammar, module
      [JSON] below.

    The definitions come first, the properties after them. *)

From Stdlib Require Import ZArith List String Ascii Bool Lia.
From Stdlib Require Import Floats DecimalString DecimalFacts DecimalPos.
Import ListNotations.

Local Open Scope string_scope.
Local Open Scope Z_scope.

(** ** Data model ([integration_runner.hpp]) *)

Record CameraConfig : Set := mkCameraConfig {
  focal_length : float;  (* meters *)
  pixel_size   : float   (* meters *)
}.

Record RunResult : Set := mkRunResult {
  success        : bool;
  error_message  : string;
  (* Edge detection *)
  num_edges      : Z;
  (* Distance determination *)
  distance_m     : float;
  altitude_m     : float;
  (* Error vs ground truth *)
  ground_truth_m : float;
  error_m        : float;
  error_percent  : float
}.

(** [RunResult r;] : the default member initialisers of the struct. *)
Definition RunResult_default : RunResult :=
  {| success := false; error_message := EmptyString;
     num_edges := 0;
     distance_m := 0%float; altitude_m := 0%float;
     ground_truth_m := 0%float; error_m := 0%float; error_percent := 0%float |}.

(** Field assignments [r.f = v]. *)
Definition set_success (v : bool) (r : RunResult) : RunResult :=
  mkRunResult v (error_message r) (num_edges r) (distance_m r) (altitude_m r)
              (ground_truth_m r) (error_m r) (error_percent r).
Definition set_error_message (v : string) (r : RunResult) : RunResult :=
  mkRunResult (success r) v (num_edges r) (distance_m r) (altitude_m r)
              (ground_truth_m r) (error_m r) (error_percent r).
Definition set_num_edges (v : Z) (r : RunResult) : RunResult :=
  mkRunResult (success r) (error_message r) v (distance_m r) (altitude_m r)
              (ground_truth_m r) (error_m r) (error_percent r).
Definition set_distance_m (v : float) (r : RunResult) : RunResult :=
  mkRunResult (success r) (error_message r) (num_edges r) v (altitude_m r)
              (ground_truth_m r) (error_m r) (error_percent r).
Definition set_altitude_m (v : float) (r : RunResult) : RunResult :=
  mkRunResult (success r) (error_message r) (num_edges r) (distance_m r) v
              (ground_truth_m r) (error_m r) (error_percent r).
Definition set_ground_truth_m (v : float) (r : RunResult) : RunResult :=
  mkRunResult (success r) (error_message r) (num_edges r) (distance_m r) (altitude_m r)
              v (error_m r) (error_percent r).
Definition set_error_m (v : float) (r : RunResult) : RunResult :=
  mkRunResult (success r) (error_message r) (num_edges r) (distance_m r) (altitude_m r)
              (ground_truth_m r) v (error_percent r).
Definition set_error_percent (v : float) (r : RunResult) : RunResult :=
  mkRunResult (success r) (error_message r) (num_edges r) (distance_m r) (altitude_m r)
              (ground_truth_m r) (error_m r) v.

(** ** Values that cross the boundary to stb_image and FOUND *)

(** [found::Image{width, height, channels, data}]. *)
Record Image : Set := mkImage {
  width    : Z;
  height   : Z;
  channels : Z;
  image    : list Byte.byte
}.

(** [found::Vec2], an edge point; [found::Points] is a [std::vector] of them. *)
Record Vec2 : Set := mkVec2 { px : float; py : float }.
Definition Points : Set := list Vec2.

(** [found::PositionVector] (a [Vec3]). *)
Record PositionVector : Set := mkVec3 { x : float; y : float; z : float }.

(** [found::Camera cam(focal_length, pixel_size, width, height)]. *)
Record Camera : Set := mkCamera {
  cam_focal_length : float;
  cam_pixel_size   : float;
  cam_xres         : Z;
  cam_yres         : Z
}.

(** ** Exceptions

    A C++ [throw] can raise an object of any type.  The handler of
    [run_pipeline] is [catch (const std::exception& e)]: it matches the objects
    whose class derives from [std::exception], of which only [e.what()] is
    read, and no other object. *)
Inductive thrown : Set :=
| StdException (what : string)   (* an object derived from [std::exception] *)
| OtherObject.                   (* a thrown object of any other type *)

Definition is_std_exception (t : thrown) : bool :=
  match t with StdException _ => true | OtherObject => false end.

(** The outcome of a call: a value, or an exception leaving the callee. *)
Inductive Exc (A : Type) : Type :=
| Ok (a : A)
| Throw (t : thrown).
Arguments Ok {A} a.
Arguments Throw {A} t.

(** ** The environment of the program *)

Record External : Type := mkExternal {
  (** [fopen(path, "rb")] returned a non-null stream. *)
  fopen_rb : string -> bool;
  (** [stbi_load(path, &width, &height, &channels, 0)]: [None] is the null
      pointer, otherwise the decoded pixels with the three out-parameters. *)
  stbi_load : string -> option Image;
  (** [found::SimpleEdgeDetectionAlgorithm(threshold, borderLength, offset).Run(image)]. *)
  edge_detector_Run : Z -> Z -> Z -> Image -> Exc Points;
  (** [found::IterativeSphericalDistanceDeterminationAlgorithm(radius, cam,
      iterations, refreshes, distanceTolerance, discriminatorRatio, pdfOrder,
      radiusLossOrder).Run(edges)]. *)
  algo_Run : float -> Camera -> Z -> Z -> Z -> float -> Z -> Z ->
             Points -> Exc PositionVector;
  (** [std::ostream << double] with the stream's default format. *)
  show_double : float -> string;
  (** [std::ofstream f(path)] left the stream in a good state. *)
  ofstream_open : string -> bool
}.

(** ** Statements: state, early return, exceptions *)

Inductive completion (A : Type) : Type :=
| Normal (a : A)       (* fell through to the next statement *)
| Returned             (* executed [return r;] *)
| Threw (t : thrown).  (* an exception is in flight *)
Arguments Normal {A} a.
Arguments Returned {A}.
Arguments Threw {A} t.

Definition Stmt (S A : Type) : Type := S -> S * completion A.

Definition ret {S A} (a : A) : Stmt S A := fun s => (s, Normal a).

Definition bind {S A B} (m : Stmt S A) (k : A -> Stmt S B) : Stmt S B :=
  fun s =>
    match m s with
    | (s', Normal a) => k a s'
    | (s', Returned) => (s', Returned)
    | (s', Threw t)  => (s', Threw t)
    end.

Notation "x <- m ;; k" := (bind m (fun x => k))
  (at level 61, m at next level, right associativity).
Notation "m ;;; k" := (bind m (fun _ => k))
  (at level 61, right associativity).

(** [r.f = v;] *)
Definition assign {S} (f : S -> S) : Stmt S unit := fun s => (f s, Normal tt).
(** reading the state *)
Definition get {S} : Stmt S S := fun s => (s, Normal s).
(** [return r;] (or [return;] in a [void] function) *)
Definition return_ {S A} : Stmt S A := fun s => (s, Returned).
(** [throw t;] *)
Definition throw {S A} (t : thrown) : Stmt S A := fun s => (s, Threw t).
(** a call into the environment: its exception, if any, is now in flight *)
Definition call {S A} (e : Exc A) : Stmt S A :=
  fun s => match e with Ok a => (s, Normal a) | Throw t => (s, Threw t) end.
(** [if (c) { body }] *)
Definition when {S} (c : bool) (body : Stmt S unit) : Stmt S unit :=
  if c then body else ret tt.

(** [try { body } catch (const std::exception& e) { handler(e.what()) }]:
    the state is the one the body had reached when it threw. *)
Definition try_catch_std_exception {S} (body : Stmt S unit)
    (handler : string -> Stmt S unit) : Stmt S unit :=
  fun s =>
    match body s with
    | (s', Threw (StdException what)) => handler what s'
    | other => other
    end.

(** ** C++ conversions and library functions used by the runner *)

(** [std::string::c_str()] read as a C string: the bytes before the first NUL. *)
Fixpoint c_str (s : string) : string :=
  match s with
  | EmptyString => EmptyString
  | String c s' => if Ascii.eqb c "000"%char then EmptyString else String c (c_str s')
  end.

(** [static_cast<int>(n)] of a [size_t]: reduction modulo 2^32 into the
    range of a 32-bit two's complement [int]. *)
Definition static_cast_int (n : Z) : Z :=
  (n + 2 ^ 31) mod 2 ^ 32 - 2 ^ 31.

(** [edges.size()] and [edges.empty()]. *)
Definition size (edges : Points) : Z := Z.of_nat (List.length edges).
Definition empty (edges : Points) : bool :=
  match edges with [] => true | _ :: _ => false end.

(** [constexpr double RADIUS_OF_EARTH = 6378137.0;] *)
Definition RADIUS_OF_EARTH : float := 6378137%float.

(** The literal [1.1] (discriminator ratio): the binary64 value nearest to it. *)
Definition discriminator_ratio : float := 0x1.199999999999ap+0%float.

(** The record built by [found::Image image{width, height, channels, data}]. *)
Definition found_Image (loaded : Image) : Image :=
  mkImage (width loaded) (height loaded) (channels loaded) (image loaded).

(** The camera built by [found::Camera cam(camera.focal_length, camera.pixel_size, width, height)]. *)
Definition found_Camera (camera : CameraConfig) (loaded : Image) : Camera :=
  mkCamera (focal_length camera) (pixel_size camera) (width loaded) (height loaded).

(** ** [run_pipeline]

    [fclose(probe)] and [stbi_image_free(data)] release resources and change
    nothing the function returns; they have no counterpart here.  The
    constructors of the edge detector, of the camera and of the distance
    algorithm run between two reads of [r] and are part of the call that
    follows them. *)

Section Runner.

Variable E : External.

(** The body of the [try] block. *)
Definition try_block (image_path : string) (camera : CameraConfig)
    (ground_truth_m : float) : Stmt RunResult unit :=
  (* Load image using stb_image *)
  match stbi_load E (c_str image_path) with
  | None =>
      assign (set_error_message ("Could not load image: " ++ image_path)) ;;;
      return_
  | Some loaded =>
      (* Create FOUND Image struct *)
      let image := found_Image loaded in
      (* threshold=10, border_thickness=1, offset=0; run edge detection *)
      edges <- call (edge_detector_Run E 10 1 0 image) ;;
      assign (set_num_edges (static_cast_int (size edges))) ;;;
      when (empty edges)
        (assign (set_error_message "No edges detected") ;;; return_) ;;;
      (* Create Camera *)
      let cam := found_Camera camera loaded in
      (* Run distance determination *)
      pos <- call (algo_Run E RADIUS_OF_EARTH cam 2 1 10 discriminator_ratio 2 4 edges) ;;
      (* Extract distance (magnitude of position vector) *)
      assign (set_distance_m
                (PrimFloat.sqrt (x pos * x pos + y pos * y pos + z pos * z pos)%float)) ;;;
      r <- get ;;
      assign (set_altitude_m (distance_m r - RADIUS_OF_EARTH)%float) ;;;
      assign (set_error_m (PrimFloat.abs (distance_m r - ground_truth_m)%float)) ;;;
      r <- get ;;
      assign (set_error_percent ((error_m r / ground_truth_m) * 100)%float) ;;;
      assign (set_success true)
  end.

(** The statements of the function body, run on the local [r]. *)
Definition run_pipeline_body (image_path : string) (camera : CameraConfig)
    (ground_truth_m : float) : Stmt RunResult unit :=
  assign (set_ground_truth_m ground_truth_m) ;;;
  (* Check image exists *)
  when (negb (fopen_rb E (c_str image_path)))
    (assign (set_error_message ("Image file not found: " ++ image_path)) ;;;
     return_) ;;;
  try_catch_std_exception
    (try_block image_path camera ground_truth_m)
    (fun what => assign (set_error_message what)) ;;;
  return_.

(** [run_pipeline(image_path, camera, ground_truth_m)]: the [RunResult] handed
    to the caller, or the exception that leaves the function. *)
Definition run_pipeline (image_path : string) (camera : CameraConfig)
    (ground_truth_m : float) : Exc RunResult :=
  match run_pipeline_body image_path camera ground_truth_m RunResult_default with
  | (r, Threw t) => Throw t
  | (r, _)       => Ok r
  end.


(** ** Output: [print_result] and [write_result_json]

    Both take [const RunResult& r]: they see the caller's object.  Their state
    is that object together with what they can write to: standard output and
    the files, a file being the text written to it so far. *)

Record Caller : Type := mkCaller {
  arg_r : RunResult;                 (* the object [r] refers to *)
  cout  : string;                    (* what was sent to [std::cout] *)
  files : string -> option string    (* the contents of the files, by path *)
}.

(** reading a field [r.f] through the reference *)
Definition read {A} (f : RunResult -> A) : Stmt Caller A :=
  fun s => (s, Normal (f (arg_r s))).

(** [std::cout << text;] *)
Definition cout_put (text : string) : Stmt Caller unit :=
  fun s => (mkCaller (arg_r s) (cout s ++ text) (files s), Normal tt).

Definition update (fs : string -> option string) (path : string)
    (text : string) : string -> option string :=
  fun p => if String.eqb p path then Some text else fs p.

(** [std::ofstream f(path);]: on success the file exists and is empty. *)
Definition ofstream (path : string) : Stmt Caller bool :=
  fun s =>
    if ofstream_open E (c_str path)
    then (mkCaller (arg_r s) (cout s) (update (files s) (c_str path) EmptyString), Normal true)
    else (s, Normal false).

(** [f << text;] on the stream opened on [path]. *)
Definition file_put (path : string) (text : string) : Stmt Caller unit :=
  fun s =>
    let old := match files s (c_str path) with Some t => t | None => EmptyString end in
    (mkCaller (arg_r s) (cout s) (update (files s) (c_str path) (old ++ text)), Normal tt).

(** The characters the string literals of the source escape. *)
Definition dq : string := String "034"%char EmptyString.   (* the double quote *)
Definition nl : string := String "010"%char EmptyString.   (* the newline *)

(** [std::ostream << int]: decimal digits, with a minus sign when negative. *)
Definition show_int (n : Z) : string := NilZero.string_of_int (Z.to_int n).

(** [(r.success ? "true" : "false")] *)
Definition show_success (b : bool) : string := if b then "true" else "false".

Definition print_result : Stmt Caller unit :=
  ok <- read success ;;
  when (negb ok)
    (msg <- read error_message ;;
     cout_put ("[integration] FAILED: " ++ msg ++ nl) ;;;
     return_) ;;;
  n <- read num_edges ;;
  d <- read distance_m ;;
  a <- read altitude_m ;;
  g <- read ground_truth_m ;;
  e <- read error_m ;;
  p <- read error_percent ;;
  cout_put ("[integration] edges:        " ++ show_int n ++ nl
         ++ "[integration] distance:     " ++ show_double E (d / 1e6)%float
                                           ++ " Mm  ("
                                           ++ show_double E (a / 1e3)%float
                                           ++ " km alt)" ++ nl
         ++ "[integration] ground truth: " ++ show_double E (g / 1e6)%float ++ " Mm" ++ nl
         ++ "[integration] error:        " ++ show_double E (e / 1e3)%float
                                           ++ " km  ("
                                           ++ show_double E p ++ "%)" ++ nl).

Definition write_result_json (path : string) : Stmt Caller unit :=
  opened <- ofstream path ;;
  when (negb opened) (throw (StdException ("Cannot write: " ++ path))) ;;;
  ok <- read success ;;
  file_put path ("{" ++ nl
              ++ "  " ++ dq ++ "success" ++ dq ++ ": " ++ show_success ok ++ "," ++ nl) ;;;
  when (negb ok)
    (msg <- read error_message ;;
     file_put path ("  " ++ dq ++ "error" ++ dq ++ ": " ++ dq ++ msg ++ dq ++ nl
                 ++ "}" ++ nl) ;;;
     return_) ;;;
  n <- read num_edges ;;
  d <- read distance_m ;;
  a <- read altitude_m ;;
  g <- read ground_truth_m ;;
  e <- read error_m ;;
  p <- read error_percent ;;
  file_put path ("  " ++ dq ++ "num_edges" ++ dq ++ ": "      ++ show_int n      ++ "," ++ nl
              ++ "  " ++ dq ++ "distance_m" ++ dq ++ ": "     ++ show_double E d ++ "," ++ nl
              ++ "  " ++ dq ++ "altitude_m" ++ dq ++ ": "     ++ show_double E a ++ "," ++ nl
              ++ "  " ++ dq ++ "ground_truth_m" ++ dq ++ ": " ++ show_double E g ++ "," ++ nl
              ++ "  " ++ dq ++ "error_m" ++ dq ++ ": "        ++ show_double E e ++ "," ++ nl
              ++ "  " ++ dq ++ "error_percent" ++ dq ++ ": "  ++ show_double E p ++ nl
              ++ "}" ++ nl).

End Runner.

(** ** The outcomes of [run_pipeline] *)

(** The two calls into FOUND, with the arguments the runner gives them. *)
Definition detect (E : External) (loaded : Image) : Exc Points :=
  edge_detector_Run E 10 1 0 (found_Image loaded).
Definition determine (E : External) (camera : CameraConfig) (loaded : Image)
    (edges : Points) : Exc PositionVector :=
  algo_Run E RADIUS_OF_EARTH (found_Camera camera loaded) 2 1 10 discriminator_ratio 2 4 edges.

(** [raised E image_path camera t]: in the run on [image_path], the image was
    opened and decoded, and edge detection or distance determination threw [t]. *)
Inductive raised (E : External) (image_path : string) (camera : CameraConfig)
    (t : thrown) : Prop :=
| raised_by_edge_detection (loaded : Image) :
    fopen_rb E (c_str image_path) = true ->
    stbi_load E (c_str image_path) = Some loaded ->
    detect E loaded = Throw t ->
    raised E image_path camera t
| raised_by_distance_determination (loaded : Image) (edges : Points) :
    fopen_rb E (c_str image_path) = true ->
    stbi_load E (c_str image_path) = Some loaded ->
    detect E loaded = Ok edges ->
    empty edges = false ->
    determine E camera loaded edges = Throw t ->
    raised E image_path camera t.

(** The record as it is on the success path, from the position vector. *)
Definition measured (n : Z) (pos : PositionVector) (ground_truth_m : float) : RunResult :=
  let d := PrimFloat.sqrt (x pos * x pos + y pos * y pos + z pos * z pos)%float in
  let e := PrimFloat.abs (d - ground_truth_m)%float in
  {| success := true; error_message := EmptyString;
     num_edges := n;
     distance_m := d; altitude_m := (d - RADIUS_OF_EARTH)%float;
     ground_truth_m := ground_truth_m; error_m := e;
     error_percent := (e / ground_truth_m * 100)%float |}.

(** The record on a failure path: the message, the edge count reached, the
    ground truth; every other field at its default. *)
Definition failed (msg : string) (n : Z) (ground_truth_m : float) : RunResult :=
  {| success := false; error_message := msg;
     num_edges := n;
     distance_m := 0%float; altitude_m := 0%float;
     ground_truth_m := ground_truth_m; error_m := 0%float; error_percent := 0%float |}.

(** Every way [run_pipeline] can end, by what the environment answered. *)
Inductive Runs (E : External) (image_path : string) (camera : CameraConfig)
    (ground_truth_m : float) : Exc RunResult -> Prop :=
| Runs_not_found :
    fopen_rb E (c_str image_path) = false ->
    Runs E image_path camera ground_truth_m
         (Ok (failed ("Image file not found: " ++ image_path) 0 ground_truth_m))
| Runs_not_loaded :
    fopen_rb E (c_str image_path) = true ->
    stbi_load E (c_str image_path) = None ->
    Runs E image_path camera ground_truth_m
         (Ok (failed ("Could not load image: " ++ image_path) 0 ground_truth_m))
| Runs_detect_caught loaded what :
    fopen_rb E (c_str image_path) = true ->
    stbi_load E (c_str image_path) = Some loaded ->
    detect E loaded = Throw (StdException what) ->
    Runs E image_path camera ground_truth_m (Ok (failed what 0 ground_truth_m))
| Runs_detect_escapes loaded :
    fopen_rb E (c_str image_path) = true ->
    stbi_load E (c_str image_path) = Some loaded ->
    detect E loaded = Throw OtherObject ->
    Runs E image_path camera ground_truth_m (Throw OtherObject)
| Runs_no_edges loaded :
    fopen_rb E (c_str image_path) = true ->
    stbi_load E (c_str image_path) = Some loaded ->
    detect E loaded = Ok [] ->
    Runs E image_path camera ground_truth_m
         (Ok (failed "No edges detected" 0 ground_truth_m))
| Runs_determine_caught loaded edges what :
    fopen_rb E (c_str image_path) = true ->
    stbi_load E (c_str image_path) = Some loaded ->
    detect E loaded = Ok edges ->
    empty edges = false ->
    determine E camera loaded edges = Throw (StdException what) ->
    Runs E image_path camera ground_truth_m
         (Ok (failed what (static_cast_int (size edges)) ground_truth_m))
| Runs_determine_escapes loaded edges :
    fopen_rb E (c_str image_path) = true ->
    stbi_load E (c_str image_path) = Some loaded ->
    detect E loaded = Ok edges ->
    empty edges = false ->
    determine E camera loaded edges = Throw OtherObject ->
    Runs E image_path camera ground_truth_m (Throw OtherObject)
| Runs_success loaded edges pos :
    fopen_rb E (c_str image_path) = true ->
    stbi_load E (c_str image_path) = Some loaded ->
    detect E loaded = Ok edges ->
    empty edges = false ->
    determine E camera loaded edges = Ok pos ->
    Runs E image_path camera ground_truth_m
         (Ok (measured (static_cast_int (size edges)) pos ground_truth_m)).

(** ** Substrings, for "the message mentions ..." *)

Fixpoint mentions (needle text : string) : bool :=
  if String.prefix needle text then true
  else match text with
       | EmptyString => false
       | String _ text' => mentions needle text'
       end.

(** ** JSON texts (RFC 8259), to say what "parseable JSON" means

    A recogniser that also builds the value.  A string keeps the characters
    written between its quotes, a number keeps its lexeme. *)

Module JSON.

#[local] Set Warnings "-register-all".

Inductive json : Set :=
| JNull
| JBool (b : bool)
| JNumber (lexeme : string)
| JString (chars : string)
| JArray (elements : list json)
| JObject (members : list (string * json)).

Definition code (c : ascii) : N := N_of_ascii c.

Definition is_ws (c : ascii) : bool :=
  N.eqb (code c) 32 || N.eqb (code c) 9 || N.eqb (code c) 10 || N.eqb (code c) 13.
Definition is_control (c : ascii) : bool := N.ltb (code c) 32.
Definition is_quote (c : ascii) : bool := N.eqb (code c) 34.
Definition is_backslash (c : ascii) : bool := N.eqb (code c) 92.
Definition is_digit (c : ascii) : bool := N.leb 48 (code c) && N.leb (code c) 57.
Definition is_digit19 (c : ascii) : bool := N.leb 49 (code c) && N.leb (code c) 57.
Definition is_hex (c : ascii) : bool :=
  is_digit c || (N.leb 65 (code c) && N.leb (code c) 70)
             || (N.leb 97 (code c) && N.leb (code c) 102).
(** the character after a backslash in a two-character escape: one of
    the quote, the backslash, [/ b f n r t] *)
Definition is_escape (c : ascii) : bool :=
  is_quote c || is_backslash c ||
  existsb (Ascii.eqb c) ["/"; "b"; "f"; "n"; "r"; "t"]%char.

Fixpoint skip_ws (s : string) : string :=
  match s with
  | String c s' => if is_ws c then skip_ws s' else s
  | EmptyString => s
  end.

Definition push (c : ascii) (r : option (string * string)) : option (string * string) :=
  match r with
  | Some (chars, rest) => Some (String c chars, rest)
  | None => None
  end.

(** The characters of a string up to its closing quote, and what follows
    it; the opening quote has been read. *)
Fixpoint scan_string (s : string) : option (string * string) :=
  match s with
  | EmptyString => None
  | String c s1 =>
      if is_quote c then Some (EmptyString, s1)
      else if is_control c then None
      else if is_backslash c then
        match s1 with
        | EmptyString => None
        | String e s2 =>
            if is_escape e then push c (push e (scan_string s2))
            else if Ascii.eqb e "u" then
              match s2 with
              | String h1 (String h2 (String h3 (String h4 s3))) =>
                  if is_hex h1 && is_hex h2 && is_hex h3 && is_hex h4
                  then push c (push e (push h1 (push h2 (push h3 (push h4
                         (scan_string s3))))))
                  else None
              | _ => None
              end
            else None
        end
      else push c (scan_string s1)
  end.

(** The longest prefix of digits, and the rest. *)
Fixpoint span_digits (s : string) : string * string :=
  match s with
  | String c s' =>
      if is_digit c
      then let (ds, rest) := span_digits s' in (String c ds, rest)
      else (EmptyString, s)
  | EmptyString => (EmptyString, s)
  end.

(** at least one digit *)
Definition digits1 (s : string) : option (string * string) :=
  match span_digits s with
  | (EmptyString, _) => None
  | (ds, rest) => Some (ds, rest)
  end.

(** [ - ] *)
Definition scan_minus (s : string) : string * string :=
  match s with
  | String c s' => if Ascii.eqb c "-" then (String c EmptyString, s') else (EmptyString, s)
  | EmptyString => (EmptyString, s)
  end.

(** int = zero / ( digit1-9 *DIGIT ) *)
Definition scan_int (s : string) : option (string * string) :=
  match s with
  | String c s' =>
      if Ascii.eqb c "0" then Some (String c EmptyString, s')
      else if is_digit19 c
           then let (ds, rest) := span_digits s' in Some (String c ds, rest)
           else None
  | EmptyString => None
  end.

(** [ frac ] = [ decimal-point 1*DIGIT ] *)
Definition scan_frac (s : string) : option (string * string) :=
  match s with
  | String c s' =>
      if Ascii.eqb c "."
      then push c (digits1 s')
      else Some (EmptyString, s)
  | EmptyString => Some (EmptyString, s)
  end.

(** [ exp ] = [ e [ minus / plus ] 1*DIGIT ] *)
Definition scan_exp (s : string) : option (string * string) :=
  match s with
  | String c s' =>
      if Ascii.eqb c "e" || Ascii.eqb c "E"
      then match s' with
           | String g s'' =>
               if Ascii.eqb g "-" || Ascii.eqb g "+"
               then push c (push g (digits1 s''))
               else push c (digits1 s')
           | EmptyString => None
           end
      else Some (EmptyString, s)
  | EmptyString => Some (EmptyString, s)
  end.

(** number = [ minus ] int [ frac ] [ exp ] *)
Definition scan_number (s : string) : option (string * string) :=
  let (m, s1) := scan_minus s in
  match scan_int s1 with
  | None => None
  | Some (i, s2) =>
      match scan_frac s2 with
      | None => None
      | Some (f, s3) =>
          match scan_exp s3 with
          | None => None
          | Some (e, s4) => Some (m ++ i ++ f ++ e, s4)
          end
      end
  end.

(** [s] without its prefix [lit] *)
Fixpoint strip_prefix (lit s : string) : option string :=
  match lit with
  | EmptyString => Some s
  | String c lit' =>
      match s with
      | String d s' => if Ascii.eqb c d then strip_prefix lit' s' else None
      | EmptyString => None
      end
  end.

(** the literal [lit] at the head of [s] *)
Definition scan_literal (lit : string) (v : json) (s : string) : option (json * string) :=
  match strip_prefix lit s with
  | Some rest => Some (v, rest)
  | None => None
  end.

(** A value at the head of [s] (leading white space allowed), and the rest.
    [fuel] bounds the number of nested calls. *)
Fixpoint parse_value (fuel : nat) (s : string) {struct fuel} : option (json * string) :=
  match fuel with
  | O => None
  | S fuel' =>
      match skip_ws s with
      | EmptyString => None
      | String c s1 =>
          if Ascii.eqb c "{" then
            match skip_ws s1 with
            | String c' s2 =>
                if Ascii.eqb c' "}" then Some (JObject [], s2)
                else match parse_members fuel' s1 with
                     | Some (ms, rest) => Some (JObject ms, rest)
                     | None => None
                     end
            | EmptyString => None
            end
          else if Ascii.eqb c "[" then
            match skip_ws s1 with
            | String c' s2 =>
                if Ascii.eqb c' "]" then Some (JArray [], s2)
                else match parse_elements fuel' s1 with
                     | Some (vs, rest) => Some (JArray vs, rest)
                     | None => None
                     end
            | EmptyString => None
            end
          else if is_quote c then
            match scan_string s1 with
            | Some (chars, rest) => Some (JString chars, rest)
            | None => None
            end
          else if Ascii.eqb c "t" then scan_literal "true" (JBool true) (String c s1)
          else if Ascii.eqb c "f" then scan_literal "false" (JBool false) (String c s1)
          else if Ascii.eqb c "n" then scan_literal "null" JNull (String c s1)
          else match scan_number (String c s1) with
               | Some (lexeme, rest) => Some (JNumber lexeme, rest)
               | None => None
               end
      end
  end

(** value *( , value ) ] *)
with parse_elements (fuel : nat) (s : string) {struct fuel} : option (list json * string) :=
  match fuel with
  | O => None
  | S fuel' =>
      match parse_value fuel' s with
      | None => None
      | Some (v, rest) =>
          match skip_ws rest with
          | String c rest' =>
              if Ascii.eqb c "]" then Some ([v], rest')
              else if Ascii.eqb c "," then
                match parse_elements fuel' rest' with
                | Some (vs, rest'') => Some (v :: vs, rest'')
                | None => None
                end
              else None
          | EmptyString => None
          end
      end
  end

(** member *( , member ) }   with   member = string : value *)
with parse_members (fuel : nat) (s : string) {struct fuel}
    : option (list (string * json) * string) :=
  match fuel with
  | O => None
  | S fuel' =>
      match skip_ws s with
      | EmptyString => None
      | String q s1 =>
          if is_quote q then
            match scan_string s1 with
            | None => None
            | Some (key, s2) =>
                match skip_ws s2 with
                | EmptyString => None
                | String colon s3 =>
                    if Ascii.eqb colon ":" then
                      match parse_value fuel' s3 with
                      | None => None
                      | Some (v, rest) =>
                          match skip_ws rest with
                          | String c rest' =>
                              if Ascii.eqb c "}" then Some ([(key, v)], rest')
                              else if Ascii.eqb c "," then
                                match parse_members fuel' rest' with
                                | Some (ms, rest'') => Some ((key, v) :: ms, rest'')
                                | None => None
                                end
                              else None
                          | EmptyString => None
                          end
                      end
                    else None
                end
            end
          else None
      end
  end.

(** A JSON text: one value between optional white space, nothing else. *)
Definition parse_text (fuel : nat) (s : string) : option json :=
  match parse_value fuel s with
  | Some (v, rest) =>
      match skip_ws rest with
      | EmptyString => Some v
      | String _ _ => None
      end
  | None => None
  end.

(** Fuel for a text nested twice as deep as it is long. *)
Definition parse (s : string) : option json :=
  parse_text (2 * String.length s + 2) s.

(** [s] is a JSON text. *)
Definition parseable (s : string) : Prop :=
  exists fuel v, parse_text fuel s = Some v.

(** The keys of an object, in the order written. *)
Definition keys (v : json) : list string :=
  match v with
  | JObject ms => map fst ms
  | _ => []
  end.

(** [lex] is a number and nothing more. *)
Definition is_number (lex : string) : bool :=
  match scan_number lex with
  | Some (_, EmptyString) => true
  | _ => false
  end.

(** A character that cannot continue a number. *)
Definition ends_number (c : ascii) : bool :=
  negb (is_digit c || Ascii.eqb c "." || Ascii.eqb c "e" || Ascii.eqb c "E").

End JSON.

(** ** Concrete environments, for the examples *)

(** An environment that answers the same to every call: whether the image
    file opens, what the decoder returns, what edge detection and distance
    determination return.  Doubles print as [0], every output file opens. *)
Definition environment (opens : bool) (decoded : option Image)
    (edges : Exc Points) (pos : Exc PositionVector) : External :=
  {| fopen_rb := fun _ => opens;
     stbi_load := fun _ => decoded;
     edge_detector_Run := fun _ _ _ _ => edges;
     algo_Run := fun _ _ _ _ _ _ _ _ _ => pos;
     show_double := fun _ => "0";
     ofstream_open := fun _ => true |}.

Definition a_camera : CameraConfig := mkCameraConfig 0.5%float 0x1p-16%float.
Definition an_image : Image := mkImage 2 1 1 [Byte.x00; Byte.xff].
Definition an_edge : Points := [mkVec2 1 0].
Definition a_position : PositionVector := mkVec3 3e6 4e6 0.

(** no file at any path *)
Definition E_missing : External :=
  environment false None (Ok []) (Ok a_position).
(** files open, but the decoder rejects them *)
Definition E_undecodable : External :=
  environment true None (Ok []) (Ok a_position).
(** the image decodes and has no edge *)
Definition E_no_edges : External :=
  environment true (Some an_image) (Ok []) (Ok a_position).
(** the whole pipeline succeeds, at distance 5e6 m *)
Definition E_success : External :=
  environment true (Some an_image) (Ok an_edge) (Ok a_position).
(** edge detection throws [t] *)
Definition E_detect_throws (t : thrown) : External :=
  environment true (Some an_image) (Throw t) (Ok a_position).
(** distance determination throws [t] *)
Definition E_determine_throws (t : thrown) : External :=
  environment true (Some an_image) (Ok an_edge) (Throw t).

(** A caller that holds [r], before any output. *)
Definition holding (r : RunResult) : Caller :=
  mkCaller r EmptyString (fun _ => None).

(** ** Frame: statements that leave the caller's record alone *)

Definition keeps_r {A} (m : Stmt Caller A) : Prop :=
  forall s, arg_r (fst (m s)) = arg_r s.

(** What the environment answers determines how the run ends: [raised] is
    incompatible with every outcome but the one that reports it. *)
Ltac same_answers :=
  repeat match goal with
  | H1 : stbi_load ?E ?p = Some ?a, H2 : stbi_load ?E ?p = Some ?b |- _ =>
      assert (a = b) by congruence; subst a; clear H2
  | H1 : detect ?E ?l = Ok ?a, H2 : detect ?E ?l = Ok ?b |- _ =>
      assert (a = b) by congruence; subst a; clear H2
  end.

(** ** Messages that need no escaping inside a JSON string *)

(** No quote, no backslash, no control character. *)
Fixpoint clean (msg : string) : bool :=
  match msg with
  | EmptyString => true
  | String c msg' =>
      negb (JSON.is_quote c) && negb (JSON.is_control c) && negb (JSON.is_backslash c)
      && clean msg'
  end.

(** A path with a double quote in its name: [my], the quote, [img.png]. *)
Definition quoted_path : string := "my" ++ dq ++ "img.png".

(** The five doubles of [r] print as JSON numbers. *)
Definition number_fields (E : External) (r : RunResult) : bool :=
  JSON.is_number (show_double E (distance_m r)) &&
  JSON.is_number (show_double E (altitude_m r)) &&
  JSON.is_number (show_double E (ground_truth_m r)) &&
  JSON.is_number (show_double E (error_m r)) &&
  JSON.is_number (show_double E (error_percent r)).


(** A Windows path: [C:], a backslash, [data], a backslash, [img.png]. *)
Definition windows_path : string :=
  "C:" ++ String "092"%char "data" ++ String "092"%char "img.png".

(** * Properties *)

(** [run_pipeline] ends in one of the eight ways of [Runs]. *)
Lemma run_pipeline_Runs (E : External) (image_path : string)
    (camera : CameraConfig) (ground_truth_m : float) :
  Runs E image_path camera ground_truth_m
       (run_pipeline E image_path camera ground_truth_m).
Proof.
  unfold run_pipeline, run_pipeline_body, try_catch_std_exception, try_block.
  cbv [bind when assign return_ ret call get].
  destruct (fopen_rb E (c_str image_path)) eqn:Hopen; cbn [negb].
  2: { now apply Runs_not_found. }
  destruct (stbi_load E (c_str image_path)) as [loaded|] eqn:Hload.
  2: { now apply Runs_not_loaded. }
  fold (detect E loaded).
  destruct (detect E loaded) as [edges|[what|]] eqn:Hdet.
  - destruct (empty edges) eqn:Hempty.
    + destruct edges; [|discriminate]. now apply Runs_no_edges with loaded.
    + fold (determine E camera loaded edges).
      destruct (determine E camera loaded edges) as [pos|[what|]] eqn:Hrun.
      * now apply (Runs_success E image_path camera ground_truth_m loaded edges pos).
      * now apply (Runs_determine_caught E image_path camera ground_truth_m loaded edges what).
      * now apply (Runs_determine_escapes E image_path camera ground_truth_m loaded edges).
  - now apply Runs_detect_caught with loaded.
  - now apply Runs_detect_escapes with loaded.
Qed.

(** ** The failure paths of [run_pipeline] *)

(** C5.  When no file can be opened at [image_path], [run_pipeline] returns a
    record with [success = false] whose message is "Image file not found: "
    followed by the path, so it mentions "not found". *)
Theorem run_pipeline_missing_file (E : External) (image_path : string)
    (camera : CameraConfig) (ground_truth_m : float) :
  fopen_rb E (c_str image_path) = false ->
  exists r,
    run_pipeline E image_path camera ground_truth_m = Ok r /\
    success r = false /\
    error_message r = "Image file not found: " ++ image_path /\
    mentions "not found" (error_message r) = true.
Proof.
  intros Hmissing.
  destruct (run_pipeline_Runs E image_path camera ground_truth_m); try congruence.
  eexists; repeat split.
Qed.

Lemma run_pipeline_missing_file_witness :
  exists r,
    run_pipeline E_missing "earth.png" a_camera 7e6%float = Ok r /\
    success r = false /\
    error_message r = "Image file not found: earth.png" /\
    mentions "not found" (error_message r) = true.
Proof.
  apply (run_pipeline_missing_file E_missing "earth.png" a_camera 7e6%float).
  reflexivity.
Defined.

(** C6.  When the file opens and the decoder returns no image,
    [run_pipeline] returns a record with [success = false] and the message
    "Could not load image: " followed by the path. *)
Theorem run_pipeline_decode_failure (E : External) (image_path : string)
    (camera : CameraConfig) (ground_truth_m : float) :
  fopen_rb E (c_str image_path) = true ->
  stbi_load E (c_str image_path) = None ->
  exists r,
    run_pipeline E image_path camera ground_truth_m = Ok r /\
    success r = false /\
    error_message r = "Could not load image: " ++ image_path.
Proof.
  intros Hopen Hload.
  destruct (run_pipeline_Runs E image_path camera ground_truth_m); try congruence.
  eexists; repeat split.
Qed.

Lemma run_pipeline_decode_failure_witness :
  exists r,
    run_pipeline E_undecodable "notes.txt" a_camera 7e6%float = Ok r /\
    success r = false /\
    error_message r = "Could not load image: notes.txt".
Proof.
  apply (run_pipeline_decode_failure E_undecodable "notes.txt" a_camera 7e6%float);
    reflexivity.
Defined.

(** C7.  When the image decodes and edge detection returns no point,
    [run_pipeline] returns a record with [success = false], [num_edges = 0]
    and the message "No edges detected". *)
Theorem run_pipeline_no_edges (E : External) (image_path : string)
    (camera : CameraConfig) (ground_truth_m : float) (loaded : Image) :
  fopen_rb E (c_str image_path) = true ->
  stbi_load E (c_str image_path) = Some loaded ->
  edge_detector_Run E 10 1 0 (found_Image loaded) = Ok [] ->
  exists r,
    run_pipeline E image_path camera ground_truth_m = Ok r /\
    success r = false /\
    num_edges r = 0 /\
    error_message r = "No edges detected".
Proof.
  intros Hopen Hload Hdet. fold (detect E loaded) in Hdet.
  destruct (run_pipeline_Runs E image_path camera ground_truth_m);
    try congruence;
    try (assert (loaded0 = loaded) by congruence; subst loaded0;
         assert (edges = []) by congruence; subst edges; discriminate).
  eexists; repeat split.
Qed.

Lemma run_pipeline_no_edges_witness :
  exists r,
    run_pipeline E_no_edges "black.png" a_camera 7e6%float = Ok r /\
    success r = false /\
    num_edges r = 0 /\
    error_message r = "No edges detected".
Proof.
  apply (run_pipeline_no_edges E_no_edges "black.png" a_camera 7e6%float an_image);
    reflexivity.
Defined.

(** C10.  Whatever the outcome, the record [run_pipeline] returns carries
    the [ground_truth_m] it was called with. *)
Theorem run_pipeline_ground_truth (E : External) (image_path : string)
    (camera : CameraConfig) (gt : float) (r : RunResult) :
  run_pipeline E image_path camera gt = Ok r ->
  ground_truth_m r = gt.
Proof.
  intros Hrun.
  destruct (run_pipeline_Runs E image_path camera gt);
    inversion Hrun; subst r; reflexivity.
Qed.

Lemma run_pipeline_ground_truth_witness :
  ground_truth_m (failed "No edges detected" 0 7e6%float) = 7e6%float.
Proof.
  apply (run_pipeline_ground_truth E_no_edges "black.png" a_camera 7e6%float).
  reflexivity.
Defined.

(** ** The success path *)

(** C4.  On success the returned [error_percent] is the double computed as
    [(|distance_m - ground_truth_m| / ground_truth_m) * 100] from the
    returned fields. *)
Theorem run_pipeline_error_percent (E : External) (image_path : string)
    (camera : CameraConfig) (gt : float) (r : RunResult) :
  run_pipeline E image_path camera gt = Ok r ->
  success r = true ->
  error_percent r
  = (PrimFloat.abs (distance_m r - ground_truth_m r) / ground_truth_m r * 100)%float.
Proof.
  intros Hrun Hok.
  destruct (run_pipeline_Runs E image_path camera gt);
    inversion Hrun; subst r; try discriminate Hok; reflexivity.
Qed.

Lemma run_pipeline_error_percent_witness :
  let r := measured 1 a_position 7e6%float in
  error_percent r
  = (PrimFloat.abs (distance_m r - ground_truth_m r) / ground_truth_m r * 100)%float.
Proof.
  apply (run_pipeline_error_percent E_success "earth.png" a_camera 7e6%float);
    reflexivity.
Defined.

(** ** [error_percent] against [error_m / ground_truth_m * 100] *)

(** Zero divided by a positive double (finite or infinite), times 100, is
    the double [+0]. *)
Lemma zero_over_positive (g : float) :
  (0 <? g)%float = true -> (0 / g * 100)%float = 0%float.
Proof.
  intros Hpos. rewrite ltb_spec in Hpos.
  apply Prim2SF_inj.
  rewrite mul_spec, div_spec.
  change (Prim2SF 0) with (S754_zero false) in *.
  change (Prim2SF 100) with (S754_finite false 7036874417766400 (-46)).
  destruct (Prim2SF g) as [s|s| |s m e]; try destruct s;
    cbn in Hpos; try discriminate Hpos; reflexivity.
Qed.

(** Zero divided by a negative double, times 100, is the double [-0],
    which [==] does not tell from [+0]. *)
Lemma zero_over_negative (g : float) :
  (g <? 0)%float = true -> (0 =? 0 / g * 100)%float = true.
Proof.
  intros Hneg. rewrite ltb_spec in Hneg.
  rewrite eqb_spec, mul_spec, div_spec.
  change (Prim2SF 0) with (S754_zero false) in *.
  change (Prim2SF 100) with (S754_finite false 7036874417766400 (-46)).
  destruct (Prim2SF g) as [s|s| |s m e]; try destruct s;
    cbn in Hneg; try discriminate Hneg; reflexivity.
Qed.

(** Distinct doubles are told apart by their IEEE decomposition. *)
Lemma zero_is_not_nan : 0%float <> nan.
Proof.
  intros H. apply (f_equal Prim2SF) in H. vm_compute in H. discriminate H.
Qed.

(** C2, as stated, fails: for a missing file and a ground truth of [0] the
    returned record has [error_percent = 0] while
    [error_m / ground_truth_m * 100] is [0 / 0 * 100], not a number. *)
Lemma error_percent_invariant_counterexample :
  exists r,
    run_pipeline E_missing "earth.png" a_camera 0%float = Ok r /\
    success r = false /\
    error_percent r = 0%float /\
    (error_m r / ground_truth_m r * 100)%float = nan /\
    error_percent r <> (error_m r / ground_truth_m r * 100)%float.
Proof.
  eexists. split; [reflexivity|].
  repeat split. exact zero_is_not_nan.
Qed.

(** C2, amended.  On success [error_percent] is [error_m / ground_truth_m * 100].
    On failure [error_m] and [error_percent] both keep their default [0]:
    the equation then holds for every positive ground truth, and for every
    negative one up to the sign of zero (the two sides compare equal with
    [==]). *)
Theorem run_pipeline_error_percent_invariant (E : External) (image_path : string)
    (camera : CameraConfig) (gt : float) (r : RunResult) :
  run_pipeline E image_path camera gt = Ok r ->
  (success r = false -> error_m r = 0%float /\ error_percent r = 0%float) /\
  (success r = true \/ (0 <? gt)%float = true ->
   error_percent r = (error_m r / ground_truth_m r * 100)%float) /\
  (success r = false -> (gt <? 0)%float = true ->
   (error_percent r =? error_m r / ground_truth_m r * 100)%float = true).
Proof.
  intros Hrun.
  destruct (run_pipeline_Runs E image_path camera gt);
    inversion Hrun; subst r; cbn;
    (split; [ intros; try discriminate; split; reflexivity |
     split; [ intros [Hs|Hpos]; try discriminate Hs; try reflexivity;
              symmetry; apply zero_over_positive; assumption
            | intros Hs Hneg; try discriminate Hs;
              apply zero_over_negative; assumption ]]).
Qed.

Lemma run_pipeline_error_percent_invariant_witness :
  let r := failed "No edges detected" 0 7e6%float in
  (success r = false -> error_m r = 0%float /\ error_percent r = 0%float) /\
  (success r = true \/ (0 <? 7e6)%float = true ->
   error_percent r = (error_m r / ground_truth_m r * 100)%float) /\
  (success r = false -> (7e6 <? 0)%float = true ->
   (error_percent r =? error_m r / ground_truth_m r * 100)%float = true).
Proof.
  apply (run_pipeline_error_percent_invariant E_no_edges "black.png" a_camera 7e6%float).
  reflexivity.
Defined.

(** ** Exceptions *)

(** C3, as stated, fails: an object that is not a [std::exception], thrown
    by edge detection, leaves [run_pipeline]. *)
Lemma run_pipeline_propagates_counterexample :
  exists t,
    detect (E_detect_throws OtherObject) an_image = Throw t /\
    run_pipeline (E_detect_throws OtherObject) "earth.png" a_camera 7e6%float
    = Throw t.
Proof. exists OtherObject. split; reflexivity. Qed.

(** C3, amended.  An exception leaves [run_pipeline] only when edge
    detection or distance determination threw an object that is not a
    [std::exception]; every [std::exception] they throw is caught, its
    [what()] becomes [error_message], and a record with [success = false]
    is returned. *)
Theorem run_pipeline_catches_std_exception (E : External) (image_path : string)
    (camera : CameraConfig) (gt : float) :
  (forall t, run_pipeline E image_path camera gt = Throw t ->
             is_std_exception t = false /\ raised E image_path camera t) /\
  (forall what, raised E image_path camera (StdException what) ->
     exists r, run_pipeline E image_path camera gt = Ok r /\
               success r = false /\ error_message r = what).
Proof.
  split.
  - intros t Hrun.
    destruct (run_pipeline_Runs E image_path camera gt);
      inversion Hrun; subst t; (split; [reflexivity|]).
    + now apply raised_by_edge_detection with loaded.
    + now apply raised_by_distance_determination with loaded edges.
  - intros what Hraised.
    destruct (run_pipeline_Runs E image_path camera gt);
      destruct Hraised; same_answers; try congruence;
      try match goal with H : empty [] = false |- _ => discriminate H end;
      (eexists; split; [reflexivity|]; split; [reflexivity|]; cbn; congruence).
Qed.

Lemma run_pipeline_catches_std_exception_witness :
  exists r,
    run_pipeline (E_determine_throws (StdException "singular matrix"))
                 "earth.png" a_camera 7e6%float = Ok r /\
    success r = false /\ error_message r = "singular matrix".
Proof.
  apply (run_pipeline_catches_std_exception
           (E_determine_throws (StdException "singular matrix"))
           "earth.png" a_camera 7e6%float).
  apply raised_by_distance_determination with an_image an_edge; reflexivity.
Defined.

(** ** [success] against [error_message] *)

(** C9, as stated, fails: a caught exception whose [what()] is empty gives
    a record with [success = false] and an empty [error_message]. *)
Lemma success_iff_no_message_counterexample :
  exists r,
    run_pipeline (E_detect_throws (StdException EmptyString))
                 "earth.png" a_camera 7e6%float = Ok r /\
    success r = false /\ error_message r = EmptyString /\
    ~ (success r = true <-> error_message r = EmptyString).
Proof.
  eexists. split; [reflexivity|].
  repeat split. cbn. intros [_ H]. discriminate (H eq_refl).
Qed.

(** C9, amended.  A successful record has an empty [error_message]; a
    returned record with an empty [error_message] is successful, unless
    edge detection or distance determination threw a [std::exception]
    whose [what()] is empty. *)
Theorem run_pipeline_success_message (E : External) (image_path : string)
    (camera : CameraConfig) (gt : float) (r : RunResult) :
  run_pipeline E image_path camera gt = Ok r ->
  (success r = true -> error_message r = EmptyString) /\
  (error_message r = EmptyString ->
   success r = true \/ raised E image_path camera (StdException EmptyString)).
Proof.
  intros Hrun.
  destruct (run_pipeline_Runs E image_path camera gt);
    inversion Hrun; subst r; cbn;
    (split; [intros; try discriminate; reflexivity|]); intros Hmsg;
    try discriminate Hmsg; try (left; reflexivity); subst what; right.
  - now apply raised_by_edge_detection with loaded.
  - now apply raised_by_distance_determination with loaded edges.
Qed.

Lemma run_pipeline_success_message_witness :
  let r := measured 1 a_position 7e6%float in
  (success r = true -> error_message r = EmptyString) /\
  (error_message r = EmptyString ->
   success r = true \/
   raised E_success "earth.png" a_camera (StdException EmptyString)).
Proof.
  apply (run_pipeline_success_message E_success "earth.png" a_camera 7e6%float).
  reflexivity.
Defined.

(** ** The record after it has been returned *)

Create HintDb frame.

Lemma keeps_r_ret {A} (a : A) : keeps_r (ret a).
Proof. intros s. reflexivity. Qed.

Lemma keeps_r_bind {A B} (m : Stmt Caller A) (k : A -> Stmt Caller B) :
  keeps_r m -> (forall a, keeps_r (k a)) -> keeps_r (bind m k).
Proof.
  intros Hm Hk s. unfold bind.
  specialize (Hm s).
  destruct (m s) as [s' [a| |t]]; cbn in *; try assumption.
  rewrite Hk. assumption.
Qed.

Lemma keeps_r_when (c : bool) (body : Stmt Caller unit) :
  keeps_r body -> keeps_r (when c body).
Proof. intros Hbody. destruct c; cbn; [assumption|apply keeps_r_ret]. Qed.

Lemma keeps_r_return {A} : keeps_r (@return_ Caller A).
Proof. intros s. reflexivity. Qed.

Lemma keeps_r_throw {A} (t : thrown) : keeps_r (@throw Caller A t).
Proof. intros s. reflexivity. Qed.

Lemma keeps_r_read {A} (f : RunResult -> A) : keeps_r (read f).
Proof. intros s. reflexivity. Qed.

Lemma keeps_r_cout_put (text : string) : keeps_r (cout_put text).
Proof. intros s. reflexivity. Qed.

Lemma keeps_r_ofstream (E : External) (path : string) : keeps_r (ofstream E path).
Proof. intros s. unfold ofstream. destruct (ofstream_open E (c_str path)); reflexivity. Qed.

Lemma keeps_r_file_put (path text : string) : keeps_r (file_put path text).
Proof. intros s. reflexivity. Qed.

#[export] Hint Resolve keeps_r_ret keeps_r_when keeps_r_return
  keeps_r_throw keeps_r_read keeps_r_cout_put keeps_r_ofstream keeps_r_file_put : frame.

Ltac frame := repeat (apply keeps_r_bind; [|intros ?]); auto with frame.

Lemma keeps_r_print_result (E : External) : keeps_r (print_result E).
Proof.
  unfold print_result. frame.
  apply keeps_r_when. frame.
Qed.

Lemma keeps_r_write_result_json (E : External) (path : string) :
  keeps_r (write_result_json E path).
Proof.
  unfold write_result_json. frame.
  apply keeps_r_when. frame.
Qed.

(** C8.  Neither [print_result(r)] nor [write_result_json(r, path)] changes
    a field of the record they are given, whether they return or throw. *)
Theorem output_leaves_result_unchanged (E : External) (s : Caller) (path : string) :
  arg_r (fst (print_result E s)) = arg_r s /\
  arg_r (fst (write_result_json E path s)) = arg_r s.
Proof.
  split.
  - apply keeps_r_print_result.
  - apply keeps_r_write_result_json.
Qed.

(** ** The text [write_result_json] writes *)

(** C1 fails on the code.  For the record [run_pipeline] returns on the
    missing file [quoted_path], [write_result_json] writes the message
    between quotes as it is; the quote inside it ends the JSON string early
    and the text is not JSON, whatever the fuel given to the parser. *)
Theorem write_result_json_unescaped_quote :
  exists r text,
    run_pipeline E_missing quoted_path a_camera 7e6%float = Ok r /\
    files (fst (write_result_json E_missing "result.json" (holding r))) "result.json"
    = Some text /\
    text = "{" ++ nl
        ++ "  " ++ dq ++ "success" ++ dq ++ ": false," ++ nl
        ++ "  " ++ dq ++ "error" ++ dq ++ ": "
               ++ dq ++ "Image file not found: my" ++ dq ++ "img.png" ++ dq ++ nl
        ++ "}" ++ nl /\
    (forall fuel, JSON.parse_text fuel text = None) /\
    ~ JSON.parseable text.
Proof.
  eexists. eexists.
  split; [reflexivity|]. split; [vm_compute; reflexivity|]. split; [reflexivity|].
  assert (Hnone : forall fuel,
    JSON.parse_text fuel
      ("{" ++ nl
        ++ "  " ++ dq ++ "success" ++ dq ++ ": false," ++ nl
        ++ "  " ++ dq ++ "error" ++ dq ++ ": "
               ++ dq ++ "Image file not found: my" ++ dq ++ "img.png" ++ dq ++ nl
        ++ "}" ++ nl) = None).
  { intros fuel. destruct fuel as [|[|[|[|fuel]]]]; reflexivity. }
  split; [exact Hnone|].
  intros [fuel [v Hv]]. rewrite Hnone in Hv. discriminate Hv.
Qed.

(** The same happens with the backslashes of a Windows path: a backslash
    followed by [d] or [i] is no JSON escape. *)
Lemma write_result_json_unescaped_backslash :
  exists r text,
    run_pipeline E_missing windows_path a_camera 7e6%float = Ok r /\
    files (fst (write_result_json E_missing "result.json" (holding r))) "result.json"
    = Some text /\
    forall fuel, JSON.parse_text fuel text = None.
Proof.
  eexists. eexists.
  split; [reflexivity|]. split; [vm_compute; reflexivity|].
  intros fuel. destruct fuel as [|[|[|[|fuel]]]]; reflexivity.
Qed.

(** A clean message is read back as it was written, up to the closing quote. *)
Lemma scan_string_clean (msg rest : string) :
  clean msg = true ->
  JSON.scan_string (msg ++ String "034" rest) = Some (msg, rest).
Proof.
  induction msg as [|c msg IH]; intros Hclean.
  - reflexivity.
  - cbn [clean] in Hclean.
    apply andb_prop in Hclean as [Hc Hmsg].
    apply andb_prop in Hc as [Hc Hb]. apply andb_prop in Hc as [Hq Hctl].
    apply negb_true_iff in Hq, Hctl, Hb.
    cbn [append JSON.scan_string]. rewrite Hq, Hctl, Hb.
    rewrite (IH Hmsg). reflexivity.
Qed.

Lemma update_same (fs : string -> option string) (path text : string) :
  update fs path text path = Some text.
Proof. unfold update. now rewrite String.eqb_refl. Qed.

(** The file a failed record is written to. *)
Lemma write_result_json_failure_text (E : External) (path : string) (s : Caller) :
  ofstream_open E (c_str path) = true ->
  success (arg_r s) = false ->
  files (fst (write_result_json E path s)) (c_str path)
  = Some ("{" ++ nl
       ++ "  " ++ dq ++ "success" ++ dq ++ ": false," ++ nl
       ++ "  " ++ dq ++ "error" ++ dq ++ ": " ++ dq ++ error_message (arg_r s) ++ dq ++ nl
       ++ "}" ++ nl).
Proof.
  intros Hopen Hfail.
  unfold write_result_json, ofstream, file_put, read.
  cbv [bind when throw return_ ret].
  rewrite Hopen. cbn [negb arg_r files cout fst].
  rewrite Hfail. cbn [negb arg_r files cout fst].
  rewrite !update_same. cbn. reflexivity.
Qed.



(** ** Numbers in the text of a successful record *)

Import JSON.

(** A number scanned from [s] is scanned the same from [s] followed by a
    character that cannot continue it. *)
Section NumberFollowed.

Variables (c : ascii) (rest : string).
Hypothesis Hends : ends_number c = true.

Let t := String c rest.

Lemma ends_number_not_digit : is_digit c = false.
Proof.
  unfold ends_number in Hends. apply negb_true_iff in Hends.
  repeat (apply orb_false_elim in Hends as [Hends ?]). assumption.
Qed.

Lemma span_digits_followed (s : string) :
  span_digits (s ++ t) = (fst (span_digits s), snd (span_digits s) ++ t).
Proof.
  induction s as [|a s IH].
  - cbn. now rewrite ends_number_not_digit.
  - cbn [append span_digits]. destruct (is_digit a).
    + rewrite IH. now destruct (span_digits s).
    + reflexivity.
Qed.

Lemma digits1_followed (s l r : string) :
  digits1 s = Some (l, r) -> digits1 (s ++ t) = Some (l, r ++ t).
Proof.
  unfold digits1. rewrite span_digits_followed.
  destruct (span_digits s) as [[|d ds] r']; [discriminate|].
  intros [= <- <-]. reflexivity.
Qed.

Lemma push_followed (a : ascii) (o : option (string * string)) (l r : string)
    (o' : option (string * string)) :
  (forall l r, o = Some (l, r) -> o' = Some (l, r ++ t)) ->
  push a o = Some (l, r) -> push a o' = Some (l, r ++ t).
Proof.
  intros H. destruct o as [[l0 r0]|]; [|discriminate].
  rewrite (H l0 r0 eq_refl). intros [= <- <-]. reflexivity.
Qed.

Lemma scan_int_followed (s l r : string) :
  scan_int s = Some (l, r) -> scan_int (s ++ t) = Some (l, r ++ t).
Proof.
  destruct s as [|a s]; [discriminate|].
  cbn [append scan_int].
  destruct (Ascii.eqb a "0").
  - intros [= <- <-]. reflexivity.
  - destruct (is_digit19 a); [|discriminate].
    rewrite span_digits_followed. destruct (span_digits s).
    intros [= <- <-]. reflexivity.
Qed.

Lemma scan_frac_followed (s l r : string) :
  scan_frac s = Some (l, r) -> scan_frac (s ++ t) = Some (l, r ++ t).
Proof.
  destruct s as [|a s].
  - intros [= <- <-]. cbn.
    unfold ends_number in Hends. apply negb_true_iff in Hends.
    repeat (apply orb_false_elim in Hends as [Hends ?]).
    now replace (Ascii.eqb c ".") with false.
  - cbn [append scan_frac]. destruct (Ascii.eqb a ".").
    + apply push_followed. apply digits1_followed.
    + intros [= <- <-]. reflexivity.
Qed.

Lemma scan_exp_followed (s l r : string) :
  scan_exp s = Some (l, r) -> scan_exp (s ++ t) = Some (l, r ++ t).
Proof.
  destruct s as [|a s].
  - intros [= <- <-]. cbn.
    unfold ends_number in Hends. apply negb_true_iff in Hends.
    repeat (apply orb_false_elim in Hends as [Hends ?]).
    replace (Ascii.eqb c "e") with false. now replace (Ascii.eqb c "E") with false.
  - cbn [append scan_exp]. destruct (Ascii.eqb a "e" || Ascii.eqb a "E").
    + destruct s as [|g s]; [discriminate|].
      cbn [append]. destruct (Ascii.eqb g "-" || Ascii.eqb g "+").
      * apply push_followed. intros l0 r0. apply push_followed. apply digits1_followed.
      * apply push_followed. apply (digits1_followed (String g s)).
    + intros [= <- <-]. reflexivity.
Qed.

Lemma scan_number_followed (s l r : string) :
  scan_number s = Some (l, r) -> scan_number (s ++ t) = Some (l, r ++ t).
Proof.
  unfold scan_number.
  destruct s as [|a s]; [discriminate|].
  assert (Hminus : scan_minus (String a s ++ t)
                 = (fst (scan_minus (String a s)), snd (scan_minus (String a s)) ++ t)).
  { cbn. now destruct (Ascii.eqb a "-"). }
  rewrite Hminus. destruct (scan_minus (String a s)) as [m s1]. cbn [fst snd].
  destruct (scan_int s1) as [[i s2]|] eqn:Hi; [|discriminate].
  rewrite (scan_int_followed _ _ _ Hi).
  destruct (scan_frac s2) as [[f s3]|] eqn:Hf; [|discriminate].
  rewrite (scan_frac_followed _ _ _ Hf).
  destruct (scan_exp s3) as [[e s4]|] eqn:He; [|discriminate].
  rewrite (scan_exp_followed _ _ _ He).
  intros [= <- <-]. reflexivity.
Qed.

End NumberFollowed.

(** What a scanner returns splits its input. *)
Lemma span_digits_splits (s : string) :
  s = fst (span_digits s) ++ snd (span_digits s).
Proof.
  induction s as [|a s IH]; [reflexivity|].
  cbn [span_digits]. destruct (is_digit a); [|reflexivity].
  destruct (span_digits s); cbn in *. now rewrite <- IH.
Qed.

Lemma digits1_splits (s l r : string) : digits1 s = Some (l, r) -> s = l ++ r.
Proof.
  unfold digits1. pose proof (span_digits_splits s) as H.
  destruct (span_digits s) as [[|d ds] r']; [discriminate|].
  intros [= <- <-]. exact H.
Qed.

Lemma push_splits (a : ascii) (o : option (string * string)) (s l r : string) :
  (forall l r, o = Some (l, r) -> s = l ++ r) ->
  push a o = Some (l, r) -> String a s = l ++ r.
Proof.
  intros H. destruct o as [[l0 r0]|]; [|discriminate].
  intros [= <- <-]. cbn. now rewrite (H l0 r0 eq_refl).
Qed.

Lemma scan_int_splits (s l r : string) : scan_int s = Some (l, r) -> s = l ++ r.
Proof.
  destruct s as [|a s]; [discriminate|]. cbn [scan_int].
  destruct (Ascii.eqb a "0").
  - intros [= <- <-]. reflexivity.
  - destruct (is_digit19 a); [|discriminate].
    pose proof (span_digits_splits s) as H. destruct (span_digits s).
    intros [= <- <-]. cbn in *. now rewrite <- H.
Qed.

Lemma scan_frac_splits (s l r : string) : scan_frac s = Some (l, r) -> s = l ++ r.
Proof.
  destruct s as [|a s]; [now intros [= <- <-]|]. cbn [scan_frac].
  destruct (Ascii.eqb a ".").
  - apply push_splits. apply digits1_splits.
  - now intros [= <- <-].
Qed.

Lemma scan_exp_splits (s l r : string) : scan_exp s = Some (l, r) -> s = l ++ r.
Proof.
  destruct s as [|a s]; [now intros [= <- <-]|]. cbn [scan_exp].
  destruct (Ascii.eqb a "e" || Ascii.eqb a "E"); [|now intros [= <- <-]].
  destruct s as [|g s]; [discriminate|].
  destruct (Ascii.eqb g "-" || Ascii.eqb g "+").
  - apply push_splits. intros l0 r0. apply push_splits. apply digits1_splits.
  - apply push_splits. apply digits1_splits.
Qed.

Lemma append_assoc (a b d : string) : (a ++ b) ++ d = a ++ b ++ d.
Proof. induction a as [|x a IH]; cbn; [reflexivity|now rewrite IH]. Qed.

Lemma append_nil_r (a : string) : a ++ EmptyString = a.
Proof. induction a as [|x a IH]; cbn; [reflexivity|now rewrite IH]. Qed.

Lemma scan_number_splits (s l r : string) : scan_number s = Some (l, r) -> s = l ++ r.
Proof.
  unfold scan_number.
  assert (Hm : s = fst (scan_minus s) ++ snd (scan_minus s)).
  { destruct s as [|a s]; [reflexivity|]. cbn. now destruct (Ascii.eqb a "-"). }
  destruct (scan_minus s) as [m s1]. cbn [fst snd] in Hm.
  destruct (scan_int s1) as [[i s2]|] eqn:Hi; [|discriminate].
  destruct (scan_frac s2) as [[f s3]|] eqn:Hf; [|discriminate].
  destruct (scan_exp s3) as [[e s4]|] eqn:He; [|discriminate].
  intros [= <- <-].
  rewrite Hm, (scan_int_splits _ _ _ Hi), (scan_frac_splits _ _ _ Hf),
    (scan_exp_splits _ _ _ He).
  now rewrite !append_assoc.
Qed.

Lemma is_number_scan (lex : string) :
  is_number lex = true -> scan_number lex = Some (lex, EmptyString).
Proof.
  unfold is_number. destruct (scan_number lex) as [[l [|]]|] eqn:H; try discriminate.
  intros _. apply scan_number_splits in H. rewrite append_nil_r in H. now subst l.
Qed.

(** A number begins with a minus sign or a digit. *)
Lemma scan_number_head (s l r : string) :
  scan_number s = Some (l, r) ->
  exists a s', s = String a s' /\ (Ascii.eqb a "-" || is_digit a) = true.
Proof.
  destruct s as [|a s]; [discriminate|]. intros H. exists a, s. split; [reflexivity|].
  unfold scan_number in H. cbn [scan_minus] in H.
  destruct (Ascii.eqb a "-"); [reflexivity|]. cbn [scan_int] in H.
  destruct (Ascii.eqb a "0") eqn:H0.
  - apply Ascii.eqb_eq in H0. now subst a.
  - destruct (is_digit19 a) eqn:H19; [|discriminate].
    unfold is_digit19 in H19. unfold is_digit. apply andb_prop in H19 as [Hlo Hhi].
    rewrite Hhi, andb_true_r. apply N.leb_le. apply N.leb_le in Hlo. lia.
Qed.

(** A number after one space, followed by a character that ends it. *)
Lemma parse_value_number (fuel : nat) (lex : string) (c : ascii) (rest : string) :
  is_number lex = true ->
  ends_number c = true ->
  parse_value (S fuel) (String " " (lex ++ String c rest))
  = Some (JNumber lex, String c rest).
Proof.
  intros Hnum Hends. apply is_number_scan in Hnum.
  pose proof (scan_number_followed c rest Hends _ _ _ Hnum) as Hscan.
  destruct (scan_number_head _ _ _ Hnum) as (a & s' & -> & Ha).
  cbn [append] in *. cbn [parse_value skip_ws is_ws]. cbn [code N_of_ascii].
  cbn - [scan_number].
  assert (Hcases : is_ws a = false /\ Ascii.eqb a "{" = false /\ Ascii.eqb a "[" = false
                   /\ is_quote a = false /\ Ascii.eqb a "t" = false
                   /\ Ascii.eqb a "f" = false /\ Ascii.eqb a "n" = false).
  { clear - Ha.
    destruct a as [[] [] [] [] [] [] [] []]; try discriminate Ha; repeat split. }
  destruct Hcases as (Hws & H1 & H2 & H3 & H4 & H5 & H6).
  rewrite Hws, H1, H2, H3, H4, H5, H6, Hscan. reflexivity.
Qed.

(** The digits of a decimal number are digits. *)
Lemma span_digits_string_of_uint (d : Decimal.uint) :
  span_digits (NilEmpty.string_of_uint d) = (NilEmpty.string_of_uint d, EmptyString).
Proof. induction d; cbn [NilEmpty.string_of_uint span_digits]; try rewrite IHd; reflexivity. Qed.

(** The decimal digits of a positive number: a digit from 1 to 9, then digits. *)
Lemma scan_int_to_uint (p : positive) :
  scan_int (NilEmpty.string_of_uint (Pos.to_uint p))
  = Some (NilEmpty.string_of_uint (Pos.to_uint p), EmptyString).
Proof.
  pose proof (Unsigned.to_uint_nonzero p) as Hnz.
  assert (Hnorm : Decimal.unorm (Pos.to_uint p) = Pos.to_uint p).
  { change (Pos.to_uint p) with (N.to_uint (Npos p)) at 2.
    rewrite <- (Unsigned.of_to p). apply eq_sym, Unsigned.to_of. }
  destruct (Pos.to_uint p) as [|d|d|d|d|d|d|d|d|d|d] eqn:Hd;
    try (cbn [NilEmpty.string_of_uint scan_int]; cbn - [span_digits];
         rewrite span_digits_string_of_uint; reflexivity).
  - discriminate Hnorm.
  - exfalso. rewrite unorm_D0 in Hnorm.
    destruct (Decimal.nzhead d) eqn:Hh;
      [ apply Hnz; unfold Decimal.unorm in Hnorm; rewrite Hh in Hnorm;
        symmetry; exact Hnorm
      | rewrite unorm_nzhead in Hnorm by (rewrite Hh; discriminate);
        apply (nzhead_nonzero d d); exact Hnorm .. ].
Qed.

(** An [int] prints as a JSON number. *)
Lemma show_int_is_number (n : Z) : is_number (show_int n) = true.
Proof.
  unfold is_number, show_int, scan_number.
  destruct n as [|p|p]; [reflexivity| |].
  - cbn [Z.to_int NilZero.string_of_int NilZero.string_of_uint].
    pose proof (Unsigned.to_uint_nonnil p) as Hnn. pose proof (scan_int_to_uint p) as Hs.
    destruct (Pos.to_uint p) eqn:Hd; [contradiction| ..];
      (replace (scan_minus _) with (EmptyString, NilEmpty.string_of_int (Decimal.Pos (Pos.to_uint p)))
         by (rewrite Hd; reflexivity));
      cbn [NilEmpty.string_of_int]; rewrite Hd, Hs; reflexivity.
  - cbn [Z.to_int NilZero.string_of_int NilZero.string_of_uint].
    pose proof (Unsigned.to_uint_nonnil p) as Hnn. pose proof (scan_int_to_uint p) as Hs.
    destruct (Pos.to_uint p) eqn:Hd; [contradiction| ..];
      cbn [scan_minus NilEmpty.string_of_int]; cbn - [scan_int NilEmpty.string_of_uint];
      rewrite Hs; reflexivity.
Qed.

(** One step of the parser. *)
Lemma parse_members_step (fuel : nat) (s : string) :
  parse_members (S fuel) s
  = match skip_ws s with
    | EmptyString => None
    | String q s1 =>
        if is_quote q then
          match scan_string s1 with
          | None => None
          | Some (key, s2) =>
              match skip_ws s2 with
              | EmptyString => None
              | String colon s3 =>
                  if Ascii.eqb colon ":" then
                    match parse_value fuel s3 with
                    | None => None
                    | Some (v, rest) =>
                        match skip_ws rest with
                        | String c rest' =>
                            if Ascii.eqb c "}" then Some ([(key, v)], rest')
                            else if Ascii.eqb c "," then
                              match parse_members fuel rest' with
                              | Some (ms, rest'') => Some ((key, v) :: ms, rest'')
                              | None => None
                              end
                            else None
                        | EmptyString => None
                        end
                    end
                  else None
              end
          end
        else None
    end.
Proof. reflexivity. Qed.

(** A member whose value is a number, followed by a comma. *)
Lemma parse_members_number_more (fuel : nat) (key lex rest : string) :
  clean key = true ->
  is_number lex = true ->
  parse_members (S (S fuel))
    (nl ++ "  " ++ dq ++ key ++ dq ++ ": " ++ lex ++ "," ++ rest)
  = match parse_members (S fuel) rest with
    | Some (ms, rest') => Some ((key, JNumber lex) :: ms, rest')
    | None => None
    end.
Proof.
  intros Hkey Hlex.
  rewrite parse_members_step.
  cbn - [scan_string parse_value parse_members].
  rewrite (scan_string_clean key _ Hkey).
  cbn - [scan_string parse_value parse_members].
  rewrite (parse_value_number fuel lex "," rest Hlex eq_refl).
  reflexivity.
Qed.

(** A member whose value is a number, followed by the closing brace. *)
Lemma parse_members_number_last (fuel : nat) (key lex rest : string) :
  clean key = true ->
  is_number lex = true ->
  parse_members (S (S fuel))
    (nl ++ "  " ++ dq ++ key ++ dq ++ ": " ++ lex ++ nl ++ "}" ++ rest)
  = Some ([(key, JNumber lex)], rest).
Proof.
  intros Hkey Hlex.
  rewrite parse_members_step.
  cbn - [scan_string parse_value parse_members].
  rewrite (scan_string_clean key _ Hkey).
  cbn - [scan_string parse_value parse_members].
  rewrite (parse_value_number fuel lex "010" _ Hlex eq_refl).
  reflexivity.
Qed.

(** The first member of a successful record, and the opening brace. *)
Lemma parse_value_success_member (fuel : nat) (rest : string) :
  parse_value (S (S (S fuel)))
    ("{" ++ nl ++ "  " ++ dq ++ "success" ++ dq ++ ": true," ++ rest)
  = match parse_members (S fuel) rest with
    | Some (ms, rest') => Some (JObject (("success", JBool true) :: ms), rest')
    | None => None
    end.
Proof.
  cbn - [parse_members]. rewrite parse_members_step.
  cbn - [parse_members]. destruct (parse_members (S fuel) rest) as [[ms r]|]; reflexivity.
Qed.

(** The file a successful record is written to. *)
Lemma write_result_json_success_text (E : External) (path : string) (s : Caller) :
  ofstream_open E (c_str path) = true ->
  success (arg_r s) = true ->
  files (fst (write_result_json E path s)) (c_str path)
  = Some ("{" ++ nl
       ++ "  " ++ dq ++ "success" ++ dq ++ ": true,"
       ++ nl ++ "  " ++ dq ++ "num_edges" ++ dq ++ ": "
             ++ show_int (num_edges (arg_r s)) ++ ","
       ++ nl ++ "  " ++ dq ++ "distance_m" ++ dq ++ ": "
             ++ show_double E (distance_m (arg_r s)) ++ ","
       ++ nl ++ "  " ++ dq ++ "altitude_m" ++ dq ++ ": "
             ++ show_double E (altitude_m (arg_r s)) ++ ","
       ++ nl ++ "  " ++ dq ++ "ground_truth_m" ++ dq ++ ": "
             ++ show_double E (ground_truth_m (arg_r s)) ++ ","
       ++ nl ++ "  " ++ dq ++ "error_m" ++ dq ++ ": "
             ++ show_double E (error_m (arg_r s)) ++ ","
       ++ nl ++ "  " ++ dq ++ "error_percent" ++ dq ++ ": "
             ++ show_double E (error_percent (arg_r s))
       ++ nl ++ "}" ++ nl).
Proof.
  intros Hopen Hok.
  unfold write_result_json, ofstream, file_put, read.
  cbv [bind when throw return_ ret].
  rewrite Hopen. cbn [negb arg_r files cout fst].
  rewrite Hok. cbn [negb arg_r files cout fst].
  rewrite !update_same. reflexivity.
Qed.

(** X2.  For a successful record whose five doubles print as JSON numbers,
    the file written is a JSON object with exactly the members [success]
    ([true]), [num_edges], [distance_m], [altitude_m], [ground_truth_m],
    [error_m] and [error_percent], in that order, each number as printed. *)
Theorem write_result_json_success_parses (E : External) (path : string) (s : Caller) :
  ofstream_open E (c_str path) = true ->
  success (arg_r s) = true ->
  number_fields E (arg_r s) = true ->
  exists text,
    files (fst (write_result_json E path s)) (c_str path) = Some text /\
    JSON.parse text
    = Some (JObject
        [("success", JBool true);
         ("num_edges", JNumber (show_int (num_edges (arg_r s))));
         ("distance_m", JNumber (show_double E (distance_m (arg_r s))));
         ("altitude_m", JNumber (show_double E (altitude_m (arg_r s))));
         ("ground_truth_m", JNumber (show_double E (ground_truth_m (arg_r s))));
         ("error_m", JNumber (show_double E (error_m (arg_r s))));
         ("error_percent", JNumber (show_double E (error_percent (arg_r s))))]).
Proof.
  intros Hopen Hok Hnum.
  unfold number_fields in Hnum.
  repeat (apply andb_prop in Hnum as [Hnum ?]).
  eexists. split; [apply write_result_json_success_text; assumption|].
  unfold JSON.parse.
  match goal with |- parse_text ?n _ = _ =>
    assert (exists k, n = S (S (S (S (S (S (S (S (S k))))))))) as [k ->]
      by (eexists; cbn [append nl dq String.length Nat.mul Nat.add];
          rewrite ?Nat.add_succ_r; reflexivity)
  end.
  unfold parse_text.
  rewrite parse_value_success_member.
  rewrite !parse_members_number_more by (reflexivity || assumption || apply show_int_is_number).
  rewrite parse_members_number_last by (reflexivity || assumption).
  reflexivity.
Qed.

Lemma write_result_json_success_parses_witness :
  exists text,
    files (fst (write_result_json E_success "result.json"
                  (holding (measured 1 a_position 7e6%float))))
          "result.json" = Some text /\
    JSON.parse text
    = Some (JObject
        [("success", JBool true); ("num_edges", JNumber "1");
         ("distance_m", JNumber "0"); ("altitude_m", JNumber "0");
         ("ground_truth_m", JNumber "0"); ("error_m", JNumber "0");
         ("error_percent", JNumber "0")]).
Proof.
  apply (write_result_json_success_parses E_success "result.json"
           (holding (measured 1 a_position 7e6%float)));
    reflexivity.
Defined.

(** ** The other paths of the two output functions *)



(** X4.  For a failed record, [print_result] sends one line to standard output:
    the tag, the message, a newline; the files are not touched. *)
Theorem print_result_failure (E : External) (s : Caller) :
  success (arg_r s) = false ->
  print_result E s
  = (mkCaller (arg_r s)
              (cout s ++ "[integration] FAILED: " ++ error_message (arg_r s) ++ nl)
              (files s),
     Returned).
Proof.
  intros Hfail.
  unfold print_result, read, cout_put. cbv [bind when return_].
  rewrite Hfail. reflexivity.
Qed.

Lemma print_result_failure_witness :
  let s := holding (failed "No edges detected" 0 7e6%float) in
  print_result E_no_edges s
  = (mkCaller (arg_r s)
              (cout s ++ "[integration] FAILED: " ++ error_message (arg_r s) ++ nl)
              (files s),
     Returned).
Proof.
  apply print_result_failure. reflexivity.
Defined.

(** * More of [run_pipeline] *)

(** ** When the run succeeds, and what the record then holds *)



(** X6.  On success the altitude is the distance less the radius of the
    Earth, 6378137 m, and [error_m] is the absolute difference between the
    distance and the ground truth, as doubles. *)
Theorem run_pipeline_success_fields (E : External) (image_path : string)
    (camera : CameraConfig) (gt : float) (r : RunResult) :
  run_pipeline E image_path camera gt = Ok r ->
  success r = true ->
  altitude_m r = (distance_m r - 6378137)%float /\
  error_m r = PrimFloat.abs (distance_m r - ground_truth_m r)%float.
Proof.
  intros Hrun Hok.
  destruct (run_pipeline_Runs E image_path camera gt);
    inversion Hrun; subst r; try discriminate Hok.
  split; reflexivity.
Qed.

Lemma run_pipeline_success_fields_witness :
  let r := measured 1 a_position 7e6%float in
  altitude_m r = (distance_m r - 6378137)%float /\
  error_m r = PrimFloat.abs (distance_m r - ground_truth_m r)%float.
Proof.
  apply (run_pipeline_success_fields E_success "earth.png" a_camera 7e6%float);
    reflexivity.
Defined.

(** ** What a failed record holds *)

(** X7.  On every failure path the four measurements keep the default
    [0.0] of the struct: nothing of a partial run is reported. *)
Theorem run_pipeline_failure_defaults (E : External) (image_path : string)
    (camera : CameraConfig) (gt : float) (r : RunResult) :
  run_pipeline E image_path camera gt = Ok r ->
  success r = false ->
  distance_m r = 0%float /\ altitude_m r = 0%float /\
  error_m r = 0%float /\ error_percent r = 0%float.
Proof.
  intros Hrun Hfail.
  destruct (run_pipeline_Runs E image_path camera gt);
    inversion Hrun; subst r; try discriminate Hfail; repeat split.
Qed.

Lemma run_pipeline_failure_defaults_witness :
  let r := failed "singular matrix" 1 7e6%float in
  distance_m r = 0%float /\ altitude_m r = 0%float /\
  error_m r = 0%float /\ error_percent r = 0%float.
Proof.
  apply (run_pipeline_failure_defaults
           (E_determine_throws (StdException "singular matrix"))
           "earth.png" a_camera 7e6%float);
    reflexivity.
Defined.

(** X8.  The message of a failed record is one of four: the file did not
    open, the decoder returned nothing, no edge was found, or it is the
    [what()] of a [std::exception] that edge detection or distance
    determination threw. *)
Theorem run_pipeline_failure_message (E : External) (image_path : string)
    (camera : CameraConfig) (gt : float) (r : RunResult) :
  run_pipeline E image_path camera gt = Ok r ->
  success r = false ->
  (fopen_rb E (c_str image_path) = false /\
   error_message r = "Image file not found: " ++ image_path) \/
  (fopen_rb E (c_str image_path) = true /\
   stbi_load E (c_str image_path) = None /\
   error_message r = "Could not load image: " ++ image_path) \/
  (exists loaded,
     stbi_load E (c_str image_path) = Some loaded /\
     detect E loaded = Ok [] /\
     error_message r = "No edges detected") \/
  (raised E image_path camera (StdException (error_message r))).
Proof.
  intros Hrun Hfail.
  destruct (run_pipeline_Runs E image_path camera gt);
    inversion Hrun; subst r; try discriminate Hfail; cbn [error_message failed].
  - left. split; [assumption|reflexivity].
  - right; left. repeat split; assumption.
  - right; right; right. now apply raised_by_edge_detection with loaded.
  - right; right; left. exists loaded. repeat split; assumption.
  - right; right; right. now apply raised_by_distance_determination with loaded edges.
Qed.

Lemma run_pipeline_failure_message_witness :
  let E := E_undecodable in
  let r := failed "Could not load image: notes.txt" 0 7e6%float in
  (fopen_rb E (c_str "notes.txt") = false /\
   error_message r = "Image file not found: notes.txt") \/
  (fopen_rb E (c_str "notes.txt") = true /\
   stbi_load E (c_str "notes.txt") = None /\
   error_message r = "Could not load image: notes.txt") \/
  (exists loaded,
     stbi_load E (c_str "notes.txt") = Some loaded /\
     detect E loaded = Ok [] /\
     error_message r = "No edges detected") \/
  (raised E "notes.txt" a_camera (StdException (error_message r))).
Proof.
  apply (run_pipeline_failure_message E_undecodable "notes.txt" a_camera 7e6%float);
    reflexivity.
Defined.

(** ** The edge count *)

Lemma static_cast_int_range (n : Z) :
  - 2 ^ 31 <= static_cast_int n < 2 ^ 31.
Proof.
  unfold static_cast_int.
  pose proof (Z.mod_pos_bound (n + 2 ^ 31) (2 ^ 32) ltac:(lia)). lia.
Qed.

Lemma static_cast_int_small (n : Z) :
  0 <= n < 2 ^ 31 -> static_cast_int n = n.
Proof.
  intros Hn. unfold static_cast_int. rewrite Z.mod_small; lia.
Qed.

Lemma size_positive (edges : Points) : empty edges = false -> 0 < size edges.
Proof.
  destruct edges; [discriminate|]. intros _. unfold size. cbn [List.length]. lia.
Qed.

(** X9.  [num_edges] always fits a 32-bit [int]; it is [0] unless edge
    detection returned points, and when it returned fewer than 2^31 of them
    (and at least one) it is their number. *)
Theorem run_pipeline_num_edges (E : External) (image_path : string)
    (camera : CameraConfig) (gt : float) (r : RunResult) :
  run_pipeline E image_path camera gt = Ok r ->
  - 2 ^ 31 <= num_edges r < 2 ^ 31 /\
  (num_edges r <> 0 ->
   exists loaded edges,
     stbi_load E (c_str image_path) = Some loaded /\
     detect E loaded = Ok edges /\
     num_edges r = static_cast_int (size edges)) /\
  (forall loaded edges,
     fopen_rb E (c_str image_path) = true ->
     stbi_load E (c_str image_path) = Some loaded ->
     detect E loaded = Ok edges ->
     size edges < 2 ^ 31 ->
     num_edges r = size edges).
Proof.
  intros Hrun.
  destruct (run_pipeline_Runs E image_path camera gt);
    inversion Hrun; subst r; cbn [num_edges failed measured];
    (split; [try apply static_cast_int_range; lia|]);
    (split; [intros Hnz; try contradiction; try (exists loaded, edges; repeat split; assumption)|]);
    intros loaded' edges' Ho Hl Hd Hsz; try congruence.
  - assert (edges' = []) by congruence. subst edges'. reflexivity.
  - assert (edges' = edges) by congruence. subst edges'.
    apply static_cast_int_small. pose proof (size_positive edges ltac:(assumption)); lia.
  - assert (edges' = edges) by congruence. subst edges'.
    apply static_cast_int_small. pose proof (size_positive edges ltac:(assumption)); lia.
Qed.

Lemma run_pipeline_num_edges_witness :
  let E := E_determine_throws (StdException "singular matrix") in
  let r := failed "singular matrix" 1 7e6%float in
  - 2 ^ 31 <= num_edges r < 2 ^ 31 /\
  (num_edges r <> 0 ->
   exists loaded edges,
     stbi_load E (c_str "earth.png") = Some loaded /\
     detect E loaded = Ok edges /\
     num_edges r = static_cast_int (size edges)) /\
  (forall loaded edges,
     fopen_rb E (c_str "earth.png") = true ->
     stbi_load E (c_str "earth.png") = Some loaded ->
     detect E loaded = Ok edges ->
     size edges < 2 ^ 31 ->
     num_edges r = size edges).
Proof.
  apply (run_pipeline_num_edges (E_determine_throws (StdException "singular matrix"))
           "earth.png" a_camera 7e6%float).
  reflexivity.
Defined.

(** ** Signs and division by zero *)

(** An absolute value is not below zero. *)
Lemma abs_not_negative (v : float) : (PrimFloat.abs v <? 0)%float = false.
Proof.
  rewrite ltb_spec, abs_spec.
  change (Prim2SF 0) with (S754_zero false).
  destruct (Prim2SF v) as [s|s| |s m e]; reflexivity.
Qed.

(** What rounding returns has the sign it was given, or is not a number. *)
Lemma binary_round_aux_not_negative (m e : Z) (l : location) :
  SFltb (binary_round_aux prec emax false m e l) (S754_zero false) = false.
Proof.
  unfold binary_round_aux.
  destruct (shr_fexp prec emax m e l) as [mrs' e'].
  destruct (shr_fexp prec emax _ e' loc_Exact) as [mrs'' e''].
  destruct (shr_m mrs'') as [|p|p]; try reflexivity.
  destruct (Z.leb e'' (emax - prec)); reflexivity.
Qed.

(** A square root is not below zero. *)
Lemma sqrt_not_negative (v : float) : (PrimFloat.sqrt v <? 0)%float = false.
Proof.
  rewrite ltb_spec, sqrt_spec.
  change (Prim2SF 0) with (S754_zero false).
  unfold SF64sqrt, SFsqrt.
  destruct (Prim2SF v) as [s|s| |s m e]; try destruct s; try reflexivity.
  destruct (SFsqrt_core_binary prec emax (Z.pos m) e) as [[mz ez] lz].
  apply binary_round_aux_not_negative.
Qed.

(** X10.  No returned record has a negative [distance_m] or a negative
    [error_m]: with [<], neither compares below zero. *)
Theorem run_pipeline_not_negative (E : External) (image_path : string)
    (camera : CameraConfig) (gt : float) (r : RunResult) :
  run_pipeline E image_path camera gt = Ok r ->
  (distance_m r <? 0)%float = false /\ (error_m r <? 0)%float = false.
Proof.
  intros Hrun.
  destruct (run_pipeline_Runs E image_path camera gt);
    inversion Hrun; subst r; cbn [distance_m error_m failed measured];
    split; try reflexivity.
  - apply sqrt_not_negative.
  - apply abs_not_negative.
Qed.

Lemma run_pipeline_not_negative_witness :
  let r := measured 1 a_position 7e6%float in
  (distance_m r <? 0)%float = false /\ (error_m r <? 0)%float = false.
Proof.
  apply (run_pipeline_not_negative E_success "earth.png" a_camera 7e6%float).
  reflexivity.
Defined.

(** An absolute value divided by a zero, times 100, is infinite or not a
    number. *)
Lemma abs_over_zero (v g : float) :
  (g =? 0)%float = true ->
  is_finite (PrimFloat.abs v / g * 100)%float = false.
Proof.
  intros Hzero. rewrite eqb_spec in Hzero.
  change (Prim2SF 0) with (S754_zero false) in Hzero.
  assert (Hsf : Prim2SF (PrimFloat.abs v / g * 100)%float = S754_nan \/
                exists s, Prim2SF (PrimFloat.abs v / g * 100)%float = S754_infinity s).
  { rewrite mul_spec, div_spec, abs_spec.
    change (Prim2SF 100) with (S754_finite false 7036874417766400 (-46)).
    destruct (Prim2SF g) as [sg|sg| |sg mg eg]; try destruct sg;
      try discriminate Hzero;
      destruct (Prim2SF v) as [s|s| |s m e]; cbn; eauto. }
  unfold is_finite, is_nan, is_infinity.
  rewrite !eqb_spec, abs_spec.
  change (Prim2SF infinity) with (S754_infinity false).
  destruct Hsf as [-> | [s ->]]; [reflexivity| destruct s; reflexivity].
Qed.

(** X11.  A ground truth of zero is not refused: when the pipeline
    succeeds the record still has [success = true], and its [error_percent],
    a division by zero, is infinite or not a number. *)
Theorem run_pipeline_zero_ground_truth (E : External) (image_path : string)
    (camera : CameraConfig) (gt : float) (r : RunResult) :
  run_pipeline E image_path camera gt = Ok r ->
  success r = true ->
  (gt =? 0)%float = true ->
  is_finite (error_percent r) = false.
Proof.
  intros Hrun Hok Hzero.
  destruct (run_pipeline_Runs E image_path camera gt);
    inversion Hrun; subst r; try discriminate Hok.
  cbn [error_percent measured]. apply abs_over_zero. assumption.
Qed.

Lemma run_pipeline_zero_ground_truth_witness :
  is_finite (error_percent (measured 1 a_position 0%float)) = false.
Proof.
  apply (run_pipeline_zero_ground_truth E_success "earth.png" a_camera 0%float);
    reflexivity.
Defined.

(** * More of the two output functions *)





(** X14.  [write_result_json] replaces the file: what it leaves there is
    fixed by the record, whatever the file held before. *)
Theorem write_result_json_overwrites (E : External) (path : string) (s1 s2 : Caller) :
  ofstream_open E (c_str path) = true ->
  arg_r s1 = arg_r s2 ->
  files (fst (write_result_json E path s1)) (c_str path)
  = files (fst (write_result_json E path s2)) (c_str path) /\
  files (fst (write_result_json E path s1)) (c_str path) <> None.
Proof.
  intros Hopen Hr.
  destruct (success (arg_r s1)) eqn:Hok.
  - rewrite (write_result_json_success_text E path s1 Hopen Hok).
    rewrite Hr in Hok.
    rewrite (write_result_json_success_text E path s2 Hopen Hok), Hr.
    split; [reflexivity|discriminate].
  - rewrite (write_result_json_failure_text E path s1 Hopen Hok).
    rewrite Hr in Hok.
    rewrite (write_result_json_failure_text E path s2 Hopen Hok), Hr.
    split; [reflexivity|discriminate].
Qed.

Lemma write_result_json_overwrites_witness :
  let r := failed "No edges detected" 0 7e6%float in
  let s1 := holding r in
  let s2 := mkCaller r "log" (fun _ => Some "an older report, longer than the new one") in
  files (fst (write_result_json E_no_edges "result.json" s1)) (c_str "result.json")
  = files (fst (write_result_json E_no_edges "result.json" s2)) (c_str "result.json") /\
  files (fst (write_result_json E_no_edges "result.json" s1)) (c_str "result.json") <> None.
Proof.
  apply write_result_json_overwrites; reflexivity.
Defined.

(** ** From the run to the report *)





